(** * ecdsa_sign: a PKCS#11 client that generates, signs and verifies

    Shallow embedding of [crypto-ops/signing/pkcs11/ecdsa_sign.cpp].

    The program is one straight-line [main] that talks to an external
    PKCS#11 library.  Nothing of that library is part of the program, so
    the embedding keeps it abstract: [main] is a finite tree of calls
    whose continuations take whatever the library answers, and a run is
    that tree executed against an arbitrary environment.  Every property
    below is a property of the calls the program makes and of the way it
    reacts to the answers, for every environment.

    What the environment is trusted with: a call writes only through the
    out-parameters it is given (the library does not keep a pointer to
    change a variable of [main] later, and does not write through the
    pointers to mechanisms, templates and data), and [malloc] returns the
    null pointer or a block that is not a variable of the program. *)

From Stdlib Require Import NArith ZArith Arith List Ascii String Bool Lia.
From Stdlib Require Import HexadecimalString HexadecimalFacts.
From Stdlib Require HexadecimalPos HexadecimalN.
From Stdlib Require Import Strings.Byte.
Import ListNotations.

Local Open Scope string_scope.
Local Open Scope list_scope.
Local Open Scope N_scope.

(** ** Cryptoki data types *)

(** The integral typedefs of the Cryptoki headers.  The program does no
    arithmetic on them apart from one bitwise or, so their width plays no
    role and they are read as naturals. *)
Definition CK_ULONG := N.
Definition CK_RV := CK_ULONG.
Definition CK_FLAGS := CK_ULONG.
Definition CK_SLOT_ID := CK_ULONG.
Definition CK_SESSION_HANDLE := CK_ULONG.
Definition CK_OBJECT_HANDLE := CK_ULONG.
Definition CK_USER_TYPE := CK_ULONG.
Definition CK_MECHANISM_TYPE := CK_ULONG.
Definition CK_ATTRIBUTE_TYPE := CK_ULONG.
Definition CK_BYTE := byte.
Definition CK_BBOOL := N.

(** The macros [main] takes from [dy_pkcs11.h].  The header is not part
    of the sources, so its constants are parameters of the development;
    [sizeof_CK_BBOOL] stands for [sizeof(CK_BBOOL)]. *)
Class dy_pkcs11_h := {
  CKR_OK : CK_RV;
  CKF_SERIAL_SESSION : CK_FLAGS;
  CKF_RW_SESSION : CK_FLAGS;
  CKU_USER : CK_USER_TYPE;
  CKM_EC_KEY_PAIR_GEN : CK_MECHANISM_TYPE;
  CKM_ECDSA_SHA256 : CK_MECHANISM_TYPE;
  CKA_TOKEN : CK_ATTRIBUTE_TYPE;
  CKA_EC_PARAMS : CK_ATTRIBUTE_TYPE;
  CKA_SIGN : CK_ATTRIBUTE_TYPE;
  CK_FALSE : CK_BBOOL;
  CK_TRUE : CK_BBOOL;
  sizeof_CK_BBOOL : CK_ULONG
}.

(** The values the OASIS PKCS#11 headers give to those macros; used
    wherever a run is evaluated. *)
Definition cryptoki : dy_pkcs11_h := {|
  CKR_OK := 0;
  CKF_SERIAL_SESSION := 4;
  CKF_RW_SESSION := 2;
  CKU_USER := 1;
  CKM_EC_KEY_PAIR_GEN := 0x1040;
  CKM_ECDSA_SHA256 := 0x1044;
  CKA_TOKEN := 1;
  CKA_EC_PARAMS := 0x180;
  CKA_SIGN := 0x108;
  CK_FALSE := 0;
  CK_TRUE := 1;
  sizeof_CK_BBOOL := 1
|}.

(** ** Pointers

    [main] hands the library the null pointer, addresses of its own local
    variables, and one block obtained from [malloc]. *)
Inductive ptr : Type :=
| NULL
| AddrOf (x : string)
| Block (b : N).

(** A pointer argument together with what is stored behind it at the
    moment of the call. *)
Record ref (A : Type) : Type := { addr : ptr; pointee : A }.
Arguments addr {A} _.
Arguments pointee {A} _.

(** [&x] for a local [x] holding [v]; also an array [x] decaying to the
    address of its first element. *)
Definition addr_of {A : Type} (x : string) (v : A) : ref A :=
  {| addr := AddrOf x; pointee := v |}.

(** What [malloc] gives back: nothing, or a block of its own that is no
    variable of the program; and that result read as a [CK_BYTE_PTR]. *)
Inductive allocation : Type :=
| OutOfMemory
| Allocated (b : N).

Definition CK_BYTE_PTR (m : allocation) : ptr :=
  match m with
  | OutOfMemory => NULL
  | Allocated b => Block b
  end.

(** What a [CK_VOID_PTR] attribute value points at in this program. *)
Inductive object : Type :=
| Bool (b : CK_BBOOL)
| Bytes (l : list CK_BYTE).

Record CK_MECHANISM : Type := {
  mechanism : CK_MECHANISM_TYPE;
  pParameter : ptr;
  ulParameterLen : CK_ULONG
}.

Record CK_ATTRIBUTE : Type := {
  type : CK_ATTRIBUTE_TYPE;
  pValue : ref object;
  ulValueLen : CK_ULONG
}.

(** ** C library helpers *)

(** A string literal initialising a [char] array: its characters and the
    terminating NUL. *)
Definition c_str (s : string) : list CK_BYTE :=
  list_byte_of_string s ++ [x00].

(** [sizeof] of an array of [char]-sized elements. *)
Definition sizeof {A : Type} (a : list A) : CK_ULONG :=
  N.of_nat (List.length a).

(** [sizeof(a) / sizeof(element)]: the number of elements of array [a]. *)
Definition countof {A : Type} (a : list A) : CK_ULONG :=
  N.of_nat (List.length a).

Fixpoint strlen (s : list CK_BYTE) : N :=
  match s with
  | [] => 0
  | x00 :: _ => 0
  | _ :: t => 1 + strlen t
  end.

(** [%08lx] for a value that fits [unsigned long]: lower-case
    hexadecimal, padded with zeros on the left to at least eight
    digits. *)
Fixpoint zeros (n : nat) : string :=
  match n with
  | O => ""
  | S m => String "0"%char (zeros m)
  end.

Definition fmt_08lx (v : N) : string :=
  let digits := NilZero.string_of_uint (N.to_hex_uint v) in
  String.append (zeros (8 - String.length digits)) digits.

Definition newline : string := String (Ascii.ascii_of_nat 10) "".

(** ** Calls that leave the program *)

(** The functions [main] calls, with their arguments.  An out-parameter
    is a [ref] as well: the library receives the address, and the reply
    below tells what the variable holds when the call is back. *)
Inductive Call : Type :=
| C_Initialize (pInitArgs : ptr)
| C_OpenSession (slotID : CK_SLOT_ID) (flags : CK_FLAGS)
    (pApplication Notify : ptr) (phSession : ref CK_SESSION_HANDLE)
| C_Login (hSession : CK_SESSION_HANDLE) (userType : CK_USER_TYPE)
    (pPin : ref (list CK_BYTE)) (ulPinLen : CK_ULONG)
| C_GenerateKeyPair (hSession : CK_SESSION_HANDLE)
    (pMechanism : ref CK_MECHANISM)
    (pPublicKeyTemplate : ref (list CK_ATTRIBUTE))
    (ulPublicKeyAttributeCount : CK_ULONG)
    (pPrivateKeyTemplate : ref (list CK_ATTRIBUTE))
    (ulPrivateKeyAttributeCount : CK_ULONG)
    (phPublicKey phPrivateKey : ref CK_OBJECT_HANDLE)
| C_SignInit (hSession : CK_SESSION_HANDLE) (pMechanism : ref CK_MECHANISM)
    (hKey : CK_OBJECT_HANDLE)
| C_Sign (hSession : CK_SESSION_HANDLE) (pData : ref (list CK_BYTE))
    (ulDataLen : CK_ULONG) (pSignature : ptr)
    (pulSignatureLen : ref (option CK_ULONG))
| C_VerifyInit (hSession : CK_SESSION_HANDLE) (pMechanism : ref CK_MECHANISM)
    (hKey : CK_OBJECT_HANDLE)
| C_Verify (hSession : CK_SESSION_HANDLE) (pData : ref (list CK_BYTE))
    (ulDataLen : CK_ULONG) (pSignature : ptr) (ulSignatureLen : CK_ULONG)
| C_CloseSession (hSession : CK_SESSION_HANDLE)
| C_Finalize (pReserved : ptr)
| malloc (size : CK_ULONG).

(** What comes back from a call: the return value and, for a call with
    out-parameters, the contents of those variables on return. *)
Definition reply (c : Call) : Type :=
  match c with
  | C_OpenSession _ _ _ _ _ => CK_RV * CK_SESSION_HANDLE
  | C_GenerateKeyPair _ _ _ _ _ _ _ _ =>
      CK_RV * CK_OBJECT_HANDLE * CK_OBJECT_HANDLE
  | C_Sign _ _ _ _ _ => CK_RV * CK_ULONG
  | malloc _ => allocation
  | _ => CK_RV
  end.

(** Every call but [malloc] is a call into the token API. *)
Definition token_api (c : Call) : bool :=
  match c with
  | malloc _ => false
  | _ => true
  end.

(** ** Programs and runs *)

Inductive Prog : Type :=
| Return
| Exit (status : Z)
| Printf (text : string) (k : Prog)
| Do (c : Call) (k : reply c -> Prog).

Declare Scope prog_scope.
Delimit Scope prog_scope with prog.
Bind Scope prog_scope with Prog.

Notation "x <- c ;; k" := (Do c (fun x => k%prog))
  (at level 61, c at next level, right associativity) : prog_scope.
Notation "' pat <- c ;; k" := (Do c (fun x => let 'pat := x in k%prog))
  (at level 61, pat pattern, c at next level, right associativity)
  : prog_scope.
Notation "c ;; k" := (Do c (fun _ => k%prog))
  (at level 61, right associativity) : prog_scope.

(** One completed call of a run. *)
Record Event : Type := { call : Call; answer : reply call }.

(** The return value of a completed token-API call. *)
Definition returned (e : Event) : option CK_RV :=
  match e with
  | {| call := c; answer := a |} =>
      match c return reply c -> option CK_RV with
      | C_OpenSession _ _ _ _ _ => fun a => Some (fst a)
      | C_GenerateKeyPair _ _ _ _ _ _ _ _ => fun a => Some (fst (fst a))
      | C_Sign _ _ _ _ _ => fun a => Some (fst a)
      | malloc _ => fun _ => None
      | _ => fun a => Some a
      end a
  end.

(** The world outside the program: it answers each call, knowing all
    that happened before. *)
Definition Env : Type := list Event -> forall c : Call, reply c.

Inductive Outcome : Type :=
| Returned
| Exited (status : Z).

Record Run : Type := {
  trace : list Event;
  stdout : string;
  outcome : Outcome
}.

Fixpoint exec (env : Env) (p : Prog) (hist : list Event) (out : string)
  : Run :=
  match p with
  | Return => {| trace := hist; stdout := out; outcome := Returned |}
  | Exit status =>
      {| trace := hist; stdout := out; outcome := Exited status |}
  | Printf text k => exec env k hist (String.append out text)
  | Do c k =>
      let a := env hist c in
      exec env (k a) (hist ++ [{| call := c; answer := a |}]) out
  end.

Definition run (env : Env) (p : Prog) : Run := exec env p [] "".

(** ** The program *)

Section Program.

Context {H : dy_pkcs11_h}.

Definition halt (rv : CK_RV) : Prog :=
  Printf ("Error " ++ fmt_08lx rv ++ newline)%string
  (Exit (-1)).

Notation "x != y" := (negb (N.eqb x y)) (at level 70, no associativity).

(** [exit] does not come back: what follows [if (rv != CKR_OK) halt(rv);]
    in the source runs only when the test is false, and is the [else]
    branch here. *)
Definition main (argc : Z) (argv : list string) : Prog :=
  let slot_id : CK_SLOT_ID := 0 in
  let hSession : CK_SESSION_HANDLE := 0 in
  let data_to_sign := c_str "data to sign" in
  (rv <- C_Initialize NULL ;;
   if rv != CKR_OK then halt rv else
   '(rv, hSession) <-
     C_OpenSession slot_id (N.lor CKF_SERIAL_SESSION CKF_RW_SESSION)
       NULL NULL (addr_of "hSession" hSession) ;;
   if rv != CKR_OK then halt rv else
   let password := c_str "" in
   rv <- C_Login hSession CKU_USER (addr_of "password" password)
           (strlen password) ;;
   if rv != CKR_OK then halt rv else
   let ecdsa_gen :=
     {| mechanism := CKM_EC_KEY_PAIR_GEN;
        pParameter := NULL; ulParameterLen := 0 |} in
   let p256_curve : list CK_BYTE :=
     [x06; x08; x2a; x86; x48; xce; x3d; x03; x01; x07] in
   let ck_false := CK_FALSE in
   let ck_true := CK_TRUE in
   let pub_template :=
     [ {| type := CKA_TOKEN; pValue := addr_of "ck_false" (Bool ck_false);
          ulValueLen := sizeof_CK_BBOOL |};
       {| type := CKA_EC_PARAMS;
          pValue := addr_of "p256_curve" (Bytes p256_curve);
          ulValueLen := sizeof p256_curve |} ] in
   let prv_template :=
     [ {| type := CKA_TOKEN; pValue := addr_of "ck_true" (Bool ck_true);
          ulValueLen := sizeof_CK_BBOOL |};
       {| type := CKA_SIGN; pValue := addr_of "ck_true" (Bool ck_true);
          ulValueLen := sizeof_CK_BBOOL |} ] in
   let pub_key : CK_OBJECT_HANDLE := 0 in
   let prv_key : CK_OBJECT_HANDLE := 0 in
   '(rv, pub_key, prv_key) <-
     C_GenerateKeyPair hSession (addr_of "ecdsa_gen" ecdsa_gen)
       (addr_of "pub_template" pub_template) (countof pub_template)
       (addr_of "prv_template" prv_template) (countof prv_template)
       (addr_of "pub_key" pub_key) (addr_of "prv_key" prv_key) ;;
   if rv != CKR_OK then halt rv else
   let ecdsa_sign :=
     {| mechanism := CKM_ECDSA_SHA256;
        pParameter := NULL; ulParameterLen := 0 |} in
   rv <- C_SignInit hSession (addr_of "ecdsa_sign" ecdsa_sign) prv_key ;;
   if rv != CKR_OK then halt rv else
   let signature_len : option CK_ULONG := None in
   '(rv, signature_len) <-
     C_Sign hSession (addr_of "data_to_sign" data_to_sign)
       (sizeof data_to_sign) NULL (addr_of "signature_len" signature_len) ;;
   if rv != CKR_OK then halt rv else
   block <- malloc signature_len ;;
   let signature := CK_BYTE_PTR block in
   '(rv, signature_len) <-
     C_Sign hSession (addr_of "data_to_sign" data_to_sign)
       (sizeof data_to_sign) signature
       (addr_of "signature_len" (Some signature_len)) ;;
   if rv != CKR_OK then halt rv else
   rv <- C_VerifyInit hSession (addr_of "ecdsa_sign" ecdsa_sign) pub_key ;;
   if rv != CKR_OK then halt rv else
   rv <- C_Verify hSession (addr_of "data_to_sign" data_to_sign)
           (sizeof data_to_sign) signature signature_len ;;
   if rv != CKR_OK then halt rv else
   C_CloseSession hSession ;;
   C_Finalize NULL ;;
   Return)%prog.

End Program.

(** ** Reading a trace *)

(** The function a call goes to. *)
Inductive Function : Type :=
| F_Initialize | F_OpenSession | F_Login | F_GenerateKeyPair
| F_SignInit | F_Sign | F_VerifyInit | F_Verify
| F_CloseSession | F_Finalize | F_malloc.

Definition fn (c : Call) : Function :=
  match c with
  | C_Initialize _ => F_Initialize
  | C_OpenSession _ _ _ _ _ => F_OpenSession
  | C_Login _ _ _ _ => F_Login
  | C_GenerateKeyPair _ _ _ _ _ _ _ _ => F_GenerateKeyPair
  | C_SignInit _ _ _ => F_SignInit
  | C_Sign _ _ _ _ _ => F_Sign
  | C_VerifyInit _ _ _ => F_VerifyInit
  | C_Verify _ _ _ _ _ => F_Verify
  | C_CloseSession _ => F_CloseSession
  | C_Finalize _ => F_Finalize
  | malloc _ => F_malloc
  end.

Definition Function_eqb (f g : Function) : bool :=
  match f, g with
  | F_Initialize, F_Initialize | F_OpenSession, F_OpenSession
  | F_Login, F_Login | F_GenerateKeyPair, F_GenerateKeyPair
  | F_SignInit, F_SignInit | F_Sign, F_Sign
  | F_VerifyInit, F_VerifyInit | F_Verify, F_Verify
  | F_CloseSession, F_CloseSession | F_Finalize, F_Finalize
  | F_malloc, F_malloc => true
  | _, _ => false
  end.

(** How often function [f] is called in a trace. *)
Definition calls_to (f : Function) (t : list Event) : nat :=
  List.length (filter (fun e => Function_eqb f (fn (call e))) t).

(** The calls into the token API of a trace, in order. *)
Definition token_calls (t : list Event) : list Call :=
  filter token_api (map call t).

(** The token-API calls whose return value [main] stores in [rv] and
    tests: all of them but the two that end the program. *)
Definition checked (c : Call) : bool :=
  match c with
  | C_CloseSession _ | C_Finalize _ | malloc _ => false
  | _ => true
  end.

(** The session handle a call is given, if it takes one. *)
Definition session_arg (c : Call) : option CK_SESSION_HANDLE :=
  match c with
  | C_Login h _ _ _ | C_GenerateKeyPair h _ _ _ _ _ _ _
  | C_SignInit h _ _ | C_Sign h _ _ _ _ | C_VerifyInit h _ _
  | C_Verify h _ _ _ _ | C_CloseSession h => Some h
  | _ => None
  end.

(** The addresses a call is given directly as arguments. *)
Definition pointer_args (c : Call) : list ptr :=
  match c with
  | C_Initialize p => [p]
  | C_OpenSession _ _ a n ph => [a; n; addr ph]
  | C_Login _ _ pin _ => [addr pin]
  | C_GenerateKeyPair _ m pub _ prv _ phpub phprv =>
      [addr m; addr pub; addr prv; addr phpub; addr phprv]
  | C_SignInit _ m _ | C_VerifyInit _ m _ => [addr m]
  | C_Sign _ d _ s pl => [addr d; s; addr pl]
  | C_Verify _ d _ s _ => [addr d; s]
  | C_CloseSession _ => []
  | C_Finalize p => [p]
  | malloc _ => []
  end.

(** What the library left in the out-parameters of a completed call. *)
Definition session_out (e : Event) : option CK_SESSION_HANDLE :=
  match e with
  | {| call := c; answer := a |} =>
      match c return reply c -> option CK_SESSION_HANDLE with
      | C_OpenSession _ _ _ _ _ => fun a => Some (snd a)
      | _ => fun _ => None
      end a
  end.

Definition keys_out (e : Event)
  : option (CK_OBJECT_HANDLE * CK_OBJECT_HANDLE) :=
  match e with
  | {| call := c; answer := a |} =>
      match c return reply c -> option (CK_OBJECT_HANDLE * CK_OBJECT_HANDLE)
      with
      | C_GenerateKeyPair _ _ _ _ _ _ _ _ =>
          fun a => Some (snd (fst a), snd a)
      | _ => fun _ => None
      end a
  end.

Definition length_out (e : Event) : option CK_ULONG :=
  match e with
  | {| call := c; answer := a |} =>
      match c return reply c -> option CK_ULONG with
      | C_Sign _ _ _ _ _ => fun a => Some (snd a)
      | _ => fun _ => None
      end a
  end.

(** The pointer a completed [malloc] handed back. *)
Definition block_out (e : Event) : option ptr :=
  match e with
  | {| call := c; answer := a |} =>
      match c return reply c -> option ptr with
      | malloc _ => fun a => Some (CK_BYTE_PTR a)
      | _ => fun _ => None
      end a
  end.

(** The eight stages of the program and the stage a token-API call
    belongs to. *)
Inductive Step : Type :=
| LibraryInit | SessionOpen | UserLogin | KeyPairGeneration
| Signing | Verification | SessionClose | LibraryFinalize.

Definition step_of (c : Call) : option Step :=
  match c with
  | C_Initialize _ => Some LibraryInit
  | C_OpenSession _ _ _ _ _ => Some SessionOpen
  | C_Login _ _ _ _ => Some UserLogin
  | C_GenerateKeyPair _ _ _ _ _ _ _ _ => Some KeyPairGeneration
  | C_SignInit _ _ _ | C_Sign _ _ _ _ _ => Some Signing
  | C_VerifyInit _ _ _ | C_Verify _ _ _ _ _ => Some Verification
  | C_CloseSession _ => Some SessionClose
  | C_Finalize _ => Some LibraryFinalize
  | malloc _ => None
  end.

Definition Step_eqb (s t : Step) : bool :=
  match s, t with
  | LibraryInit, LibraryInit | SessionOpen, SessionOpen
  | UserLogin, UserLogin | KeyPairGeneration, KeyPairGeneration
  | Signing, Signing | Verification, Verification
  | SessionClose, SessionClose | LibraryFinalize, LibraryFinalize => true
  | _, _ => false
  end.

(** Consecutive calls of one stage count as one occurrence of it. *)
Fixpoint stages (l : list Step) : list Step :=
  match l with
  | [] => []
  | s :: rest =>
      match rest with
      | [] => [s]
      | t :: _ => if Step_eqb s t then stages rest else s :: stages rest
      end
  end.

Fixpoint somes {A : Type} (l : list (option A)) : list A :=
  match l with
  | [] => []
  | Some a :: rest => a :: somes rest
  | None :: rest => somes rest
  end.

Definition steps (t : list Event) : list Step :=
  stages (somes (map (fun e => step_of (call e)) t)).

(** A call with the values that come from the library or the allocator
    (handles, the signature buffer and its length) blanked out: what is
    left is what the program itself fixes. *)
Definition fixed_part (c : Call) : Call :=
  match c with
  | C_Login _ u pin n => C_Login 0 u pin n
  | C_GenerateKeyPair _ m pub n prv k phpub phprv =>
      C_GenerateKeyPair 0 m pub n prv k phpub phprv
  | C_SignInit _ m _ => C_SignInit 0 m 0
  | C_Sign _ d n _ pl =>
      C_Sign 0 d n NULL
        {| addr := addr pl;
           pointee := option_map (fun _ => 0) (pointee pl) |}
  | C_VerifyInit _ m _ => C_VerifyInit 0 m 0
  | C_Verify _ d n _ _ => C_Verify 0 d n NULL 0
  | C_CloseSession _ => C_CloseSession 0
  | malloc _ => malloc 0
  | c' => c'
  end.

(** ** Sample environments *)

(** A library that answers every call with the return value [rv_for]
    chooses for it, hands out session 7 and keys 11 (public) and 12
    (private) and asks for 64 signature bytes, and an allocator that
    answers [block]. *)
Definition answering (rv_for : Call -> CK_RV) (block : allocation) : Env :=
  fun _ c =>
    match c return reply c with
    | C_OpenSession _ _ _ _ _ as c' => (rv_for c', 7)
    | C_GenerateKeyPair _ _ _ _ _ _ _ _ as c' => (rv_for c', 11, 12)
    | C_Sign _ _ _ _ _ as c' => (rv_for c', 64)
    | malloc _ => block
    | c' => rv_for c'
    end.

Section Environments.

Context {H : dy_pkcs11_h}.

Definition all_ok : Env := answering (fun _ => CKR_OK) (Allocated 1).

(** Everything succeeds except that the allocator is out of memory. *)
Definition malloc_fails : Env := answering (fun _ => CKR_OK) OutOfMemory.

End Environments.

(** Under the standard header values: closing the session fails with
    [CKR_GENERAL_ERROR], everything else succeeds. *)
Definition close_fails : Env :=
  answering (fun c => match c with C_CloseSession _ => 5 | _ => 0 end)
    (Allocated 1).

(** Under the standard header values: the login is refused with
    [CKR_PIN_INCORRECT]. *)
Definition login_fails : Env :=
  answering (fun c => match c with C_Login _ _ _ _ => 0xA0 | _ => 0 end)
    (Allocated 1).

(** Under the standard header values: everything succeeds, as with
    [all_ok], but the library hands out session 8 and keys 21 (public)
    and 22 (private) and asks for 72 signature bytes, and the allocator
    hands out block 2. *)
Definition other_answers : Env :=
  fun _ c =>
    match c return reply c with
    | C_OpenSession _ _ _ _ _ => (0, 8)
    | C_GenerateKeyPair _ _ _ _ _ _ _ _ => (0, 21, 22)
    | C_Sign _ _ _ _ _ => (0, 72)
    | malloc _ => Allocated 2
    | _ => 0
    end.

(** ** Sizes and characters *)

Section Sizes.

Context {H : dy_pkcs11_h}.

(** The size in bytes of what an attribute value points at. *)
Definition value_size (o : object) : CK_ULONG :=
  match o with
  | Bool _ => sizeof_CK_BBOOL
  | Bytes l => sizeof l
  end.

(** The run left through [exit(-1)] right after a call to one of the
    functions [fs] that returned something other than [CKR_OK]. *)
Definition stopped_by (fs : list Function) (r : Run) : Prop :=
  outcome r = Exited (-1) /\
  exists (pre : list Event) (e : Event) (rv : CK_RV),
    trace r = pre ++ [e] /\
    In (fn (call e)) fs /\
    returned e = Some rv /\
    rv <> CKR_OK.

End Sizes.

(** The characters [0-9a-f]. *)
Definition lower_hex (c : ascii) : bool :=
  let n := N_of_ascii c in
  ((48 <=? n) && (n <=? 57)) || ((97 <=? n) && (n <=? 102)).

Fixpoint all_chars (p : ascii -> bool) (s : string) : bool :=
  match s with
  | EmptyString => true
  | String c rest => p c && all_chars p rest
  end.

(** ** The shape of a run *)

(** Everything the outside world contributes to one run of [main]. *)
Record Answers : Type := {
  rv_init : CK_RV;
  rv_open : CK_RV;
  h_session : CK_SESSION_HANDLE;
  rv_login : CK_RV;
  rv_keys : CK_RV;
  h_pub : CK_OBJECT_HANDLE;
  h_prv : CK_OBJECT_HANDLE;
  rv_sign_init : CK_RV;
  rv_query : CK_RV;
  len_query : CK_ULONG;
  p_signature : allocation;
  rv_sign : CK_RV;
  len_sign : CK_ULONG;
  rv_verify_init : CK_RV;
  rv_verify : CK_RV;
  rv_close : CK_RV;
  rv_final : CK_RV
}.

Section Shape.

Context {H : dy_pkcs11_h}.

Definition the_data : ref (list CK_BYTE) :=
  addr_of "data_to_sign" (c_str "data to sign").

Definition the_sign_mechanism : ref CK_MECHANISM :=
  addr_of "ecdsa_sign"
    {| mechanism := CKM_ECDSA_SHA256; pParameter := NULL;
       ulParameterLen := 0 |}.

Definition the_curve_attribute : CK_ATTRIBUTE :=
  {| type := CKA_EC_PARAMS;
     pValue :=
       addr_of "p256_curve"
         (Bytes [x06; x08; x2a; x86; x48; xce; x3d; x03; x01; x07]);
     ulValueLen := 10 |}.

Definition the_public_template : list CK_ATTRIBUTE :=
  [ {| type := CKA_TOKEN; pValue := addr_of "ck_false" (Bool CK_FALSE);
       ulValueLen := sizeof_CK_BBOOL |};
    the_curve_attribute ].

Definition the_private_template : list CK_ATTRIBUTE :=
  [ {| type := CKA_TOKEN; pValue := addr_of "ck_true" (Bool CK_TRUE);
       ulValueLen := sizeof_CK_BBOOL |};
    {| type := CKA_SIGN; pValue := addr_of "ck_true" (Bool CK_TRUE);
       ulValueLen := sizeof_CK_BBOOL |} ].

(** The twelve calls of a run that nothing stops, as determined by the
    answers. *)
Definition script (a : Answers) : list Event :=
  [ {| call := C_Initialize NULL; answer := rv_init a |};
    {| call :=
         C_OpenSession 0 (N.lor CKF_SERIAL_SESSION CKF_RW_SESSION)
           NULL NULL (addr_of "hSession" 0);
       answer := (rv_open a, h_session a) |};
    {| call :=
         C_Login (h_session a) CKU_USER (addr_of "password" [x00]) 0;
       answer := rv_login a |};
    {| call :=
         C_GenerateKeyPair (h_session a)
           (addr_of "ecdsa_gen"
              {| mechanism := CKM_EC_KEY_PAIR_GEN; pParameter := NULL;
                 ulParameterLen := 0 |})
           (addr_of "pub_template" the_public_template) 2
           (addr_of "prv_template" the_private_template) 2
           (addr_of "pub_key" 0) (addr_of "prv_key" 0);
       answer := (rv_keys a, h_pub a, h_prv a) |};
    {| call := C_SignInit (h_session a) the_sign_mechanism (h_prv a);
       answer := rv_sign_init a |};
    {| call :=
         C_Sign (h_session a) the_data 13 NULL
           (addr_of "signature_len" None);
       answer := (rv_query a, len_query a) |};
    {| call := malloc (len_query a); answer := p_signature a |};
    {| call :=
         C_Sign (h_session a) the_data 13 (CK_BYTE_PTR (p_signature a))
           (addr_of "signature_len" (Some (len_query a)));
       answer := (rv_sign a, len_sign a) |};
    {| call := C_VerifyInit (h_session a) the_sign_mechanism (h_pub a);
       answer := rv_verify_init a |};
    {| call :=
         C_Verify (h_session a) the_data 13 (CK_BYTE_PTR (p_signature a))
           (len_sign a);
       answer := rv_verify a |};
    {| call := C_CloseSession (h_session a); answer := rv_close a |};
    {| call := C_Finalize NULL; answer := rv_final a |} ].

(** The fixed parts of the calls of a trace. *)
Definition fixed_parts (t : list Event) : list Call :=
  map (fun e => fixed_part (call e)) t.

(** Every tested call of [t] returned [CKR_OK]. *)
Definition passed (t : list Event) : Prop :=
  forall e, In e t -> checked (call e) = true -> returned e = Some CKR_OK.

(** A run of [main] either goes through the whole script, or stops
    right after the first tested call that fails. *)
Inductive main_run (r : Run) : Prop :=
| run_complete (a : Answers) :
    trace r = script a ->
    passed (script a) ->
    stdout r = "" ->
    outcome r = Returned ->
    main_run r
| run_halted (a : Answers) (n : nat) (e : Event) (rv : CK_RV) :
    trace r = firstn n (script a) ++ [e] ->
    nth_error (script a) n = Some e ->
    checked (call e) = true ->
    returned e = Some rv ->
    rv <> CKR_OK ->
    passed (firstn n (script a)) ->
    stdout r = ("Error " ++ fmt_08lx rv ++ newline)%string ->
    outcome r = Exited (-1) ->
    main_run r.

Lemma exec_Do (env : Env) c k hist out :
  exec env (Do c k) hist out =
  exec env (k (env hist c))
    (hist ++ [{| call := c; answer := env hist c |}]) out.
Proof. reflexivity. Qed.

Lemma passed_nil : passed [].
Proof. intros e []. Qed.

Lemma passed_cons e t :
  (checked (call e) = true -> returned e = Some CKR_OK) ->
  passed t -> passed (e :: t).
Proof.
  intros He Ht e' [<- | Hin]; [exact He | now apply Ht].
Qed.

Lemma passed_In t e :
  passed t -> In e t -> checked (call e) = true ->
  returned e = Some CKR_OK.
Proof. intros Ht Hin Hc. now apply Ht. Qed.

(** One call of the run: the answer becomes a fresh unknown. *)
Ltac next_call env :=
  rewrite exec_Do;
  match goal with
  | |- context [env ?h ?c] => generalize (env h c)
  end;
  cbn [reply app].

(** The test after a call: [ok] names the success, [ko] the failure. *)
Ltac test_rv rv ok ko :=
  cbn beta iota;
  destruct (N.eqb_spec rv CKR_OK) as [ok | ko]; cbn [negb].

Ltac all_passed :=
  cbn [firstn script];
  repeat (apply passed_cons;
          [ cbn; intros; subst; first [ reflexivity | discriminate ] | ]);
  apply passed_nil.

(** The run stopped at position [n] of the script built from [a]. *)
Ltac stopped a n :=
  match goal with
  | ko : ?rv <> CKR_OK |- _ =>
      eapply (run_halted _ a n _ rv);
      [ reflexivity | reflexivity | reflexivity | reflexivity
      | exact ko | all_passed | reflexivity | reflexivity ]
  end.

Lemma main_runs (env : Env) (argc : Z) (argv : list string) :
  main_run (run env (main argc argv)).
Proof.
  unfold run, main.
  next_call env; intros rI. test_rv rI EI NI;
    [ | stopped (Build_Answers rI 0 0 0 0 0 0 0 0 0 OutOfMemory 0 0 0 0 0 0) 0%nat ].
  next_call env; intros [rO hS]. test_rv rO EO NO;
    [ | stopped (Build_Answers rI rO hS 0 0 0 0 0 0 0 OutOfMemory 0 0 0 0 0 0) 1%nat ].
  next_call env; intros rL. test_rv rL EL NL;
    [ | stopped (Build_Answers rI rO hS rL 0 0 0 0 0 0 OutOfMemory 0 0 0 0 0 0) 2%nat ].
  next_call env; intros [[rG pub] prv]. test_rv rG EG NG;
    [ | stopped (Build_Answers rI rO hS rL rG pub prv 0 0 0 OutOfMemory 0 0 0 0 0 0)
      3%nat ].
  next_call env; intros rSI. test_rv rSI ESI NSI;
    [ | stopped (Build_Answers rI rO hS rL rG pub prv rSI 0 0 OutOfMemory 0 0 0 0 0 0)
      4%nat ].
  next_call env; intros [rQ len]. test_rv rQ EQ NQ;
    [ | stopped
      (Build_Answers rI rO hS rL rG pub prv rSI rQ len OutOfMemory 0 0 0 0 0 0)
      5%nat ].
  next_call env; intros sig. cbn beta iota.
  next_call env; intros [rS len']. test_rv rS ES NS;
    [ | stopped
      (Build_Answers rI rO hS rL rG pub prv rSI rQ len sig rS len' 0 0 0 0)
      7%nat ].
  next_call env; intros rVI. test_rv rVI EVI NVI;
    [ | stopped
      (Build_Answers rI rO hS rL rG pub prv rSI rQ len sig rS len' rVI 0 0 0)
      8%nat ].
  next_call env; intros rV. test_rv rV EV NV;
    [ | stopped
      (Build_Answers rI rO hS rL rG pub prv rSI rQ len sig rS len' rVI rV
         0 0)
      9%nat ].
  next_call env; intros rC. cbn beta iota.
  next_call env; intros rF. cbn beta iota.
  apply (run_complete _
           (Build_Answers rI rO hS rL rG pub prv rSI rQ len sig rS len'
              rVI rV rC rF));
    [ reflexivity | all_passed | reflexivity | reflexivity ].
Qed.

End Shape.

(** ** Lists of events *)

Lemma In_firstn {A : Type} (n : nat) (l : list A) (x : A) :
  In x (firstn n l) -> In x l.
Proof.
  revert l; induction n as [| n IH]; intros [| y l]; cbn;
    try contradiction.
  intros [-> | Hin]; [now left | right; now apply IH].
Qed.

(** An element of a list that ends in [x] is that last [x] with nothing
    after it, or it lies before. *)
Lemma last_or_before {A : Type} (l pre post : list A) (x e : A) :
  l ++ [x] = pre ++ e :: post ->
  (e = x /\ post = [] /\ pre = l) \/ In e l.
Proof.
  revert pre; induction l as [| y l IH]; intros [| p pre] Heq; cbn in Heq.
  - injection Heq as -> <-. now left.
  - injection Heq as _ Heq. now destruct pre.
  - injection Heq as -> _. right; now left.
  - injection Heq as -> Heq.
    destruct (IH _ Heq) as [(-> & -> & ->) | Hin]; [now left | right; now right].
Qed.

(** ** The position at which a run can stop *)

Section Positions.

Context {H : dy_pkcs11_h}.

(** Only a tested call stops the run, and the calls before it are tested
    calls or the allocation. *)
Lemma before_a_stop (a : Answers) (n : nat) (e0 e : Event) :
  nth_error (script a) n = Some e0 -> checked (call e0) = true ->
  In e (firstn n (script a)) ->
  checked (call e) = true \/ returned e = None.
Proof.
  intros Hn Hc Hin.
  do 12 (destruct n as [| n];
         [ cbn in Hn; injection Hn as <-; try discriminate Hc;
           cbn in Hin; intuition (subst; cbn; auto) | ]).
  destruct n; discriminate Hn.
Qed.

End Positions.

(** ** Error handling *)

(** C1, as amended: every token-API call whose return value the program
    tests (the nine calls from [C_Initialize] to [C_Verify]) is fatal when
    it fails: if it returns a value other than [CKR_OK], nothing is called
    after it, the program prints "Error " and the value as eight
    hexadecimal digits, and leaves through [exit(-1)].  The return values
    of [C_CloseSession] and [C_Finalize] are dropped: when one of them is
    not [CKR_OK] the program prints nothing and returns from [main]. *)
Theorem tested_errors_are_fatal {H : dy_pkcs11_h}
  (env : Env) (argc : Z) (argv : list string)
  (pre post : list Event) (e : Event) (rv : CK_RV) :
  let r := run env (main argc argv) in
  trace r = pre ++ e :: post ->
  returned e = Some rv ->
  rv <> CKR_OK ->
  if checked (call e)
  then post = [] /\
       stdout r = ("Error " ++ fmt_08lx rv ++ newline)%string /\
       outcome r = Exited (-1)
  else stdout r = "" /\ outcome r = Returned.
Proof.
  intros r Htr Hret Hrv.
  destruct (main_runs env argc argv)
    as [a Ht Hp Hout Hres | a n e0 rv0 Ht Hn Hc0 Hret0 Hko Hp Hout Hres];
    fold r in Ht, Hout, Hres.
  - assert (Hin : In e (script a)).
    { rewrite <- Ht, Htr. apply in_elt. }
    destruct (checked (call e)) eqn:Hc; [ | now split ].
    apply (passed_In _ _ Hp Hin) in Hc. congruence.
  - rewrite Htr in Ht. symmetry in Ht.
    apply last_or_before in Ht as [(-> & -> & _) | Hin].
    + rewrite Hc0. replace rv with rv0 by congruence. now repeat split.
    + destruct (before_a_stop a n e0 e Hn Hc0 Hin) as [Hc | Hnone];
        [ | congruence ].
      apply (passed_In _ _ Hp Hin) in Hc. congruence.
Qed.

Lemma tested_errors_are_fatal_witness :
  let r := run login_fails (@main cryptoki 1 []) in
  let e :=
    {| call := C_Login 7 1 (addr_of "password" [x00]) 0; answer := 0xA0 |} in
  (trace r = firstn 2 (trace r) ++ e :: [] /\
   returned e = Some 0xA0 /\ 0xA0 <> @CKR_OK cryptoki) /\
  ([] = @nil Event /\ stdout r = ("Error 000000a0" ++ newline)%string /\
   outcome r = Exited (-1)).
Proof.
  split.
  - split; [ reflexivity | split; [ reflexivity | discriminate ] ].
  - apply (@tested_errors_are_fatal cryptoki login_fails 1 []
             (firstn 2 (trace (run login_fails (@main cryptoki 1 []))))
             []
             {| call := C_Login 7 1 (addr_of "password" [x00]) 0;
                answer := 0xA0 |}
             0xA0);
      [ reflexivity | reflexivity | discriminate ].
Defined.

(** C1 as the specification words it fails where the session is closed:
    [C_CloseSession] returns [CKR_GENERAL_ERROR], and the program neither
    prints nor exits but goes on to call [C_Finalize]. *)
Lemma close_failure_is_not_fatal :
  let r := run close_fails (@main cryptoki 1 []) in
  ~ (forall (pre post : list Event) (e : Event) (rv : CK_RV),
        trace r = pre ++ e :: post ->
        token_api (call e) = true ->
        returned e = Some rv ->
        rv <> @CKR_OK cryptoki ->
        (forall e', In e' post -> token_api (call e') = false) /\
        stdout r = ("Error " ++ fmt_08lx rv ++ newline)%string /\
        outcome r = Exited (-1)).
Proof.
  intros r Hclaim.
  destruct (Hclaim (firstn 10 (trace r))
              [{| call := C_Finalize NULL; answer := 0 |}]
              {| call := C_CloseSession 7; answer := 5 |} 5)
    as (Hpost & _ & Hexit);
    [ reflexivity | reflexivity | reflexivity | discriminate | ].
  discriminate Hexit.
Qed.

(** ** Order and number of the calls *)

Section Prefixes.

Context {H : dy_pkcs11_h}.

Lemma firstn_snoc {A : Type} (l : list A) (n : nat) (x : A) :
  nth_error l n = Some x -> firstn n l ++ [x] = firstn (S n) l.
Proof.
  revert n; induction l as [| y l IH]; intros [| n] Hn; cbn in *;
    try discriminate.
  - now injection Hn as ->.
  - f_equal. now apply IH.
Qed.

(** The trace of a run is an initial segment of a script; all its
    tested calls but possibly the last one passed; and unless it is the
    whole script, its last call is a tested call that failed. *)
Lemma trace_prefix (env : Env) (argc : Z) (argv : list string) :
  exists a n,
    (n <= 12)%nat /\
    trace (run env (main argc argv)) = firstn n (script a) /\
    passed (firstn (n - 1) (script a)) /\
    (n = 12%nat \/
     exists e rv,
       nth_error (script a) (n - 1) = Some e /\
       checked (call e) = true /\
       returned e = Some rv /\ rv <> CKR_OK).
Proof.
  destruct (main_runs env argc argv)
    as [a Ht Hp _ _ | a n e rv Ht Hn Hc Hret Hko Hp _ _].
  - exists a, 12%nat. repeat split; [ lia | exact Ht | | now left ].
    intros e Hin. apply Hp. now apply In_firstn in Hin.
  - exists a, (S n). rewrite Nat.sub_succ, Nat.sub_0_r. repeat split.
    + apply (nth_error_Some (script a) n). congruence.
    + rewrite Ht. now apply firstn_snoc.
    + exact Hp.
    + right. now exists e, rv.
Qed.

Lemma trace_in_script (env : Env) (argc : Z) (argv : list string) e :
  In e (trace (run env (main argc argv))) -> exists a, In e (script a).
Proof.
  destruct (trace_prefix env argc argv) as (a & n & _ & -> & _ & _).
  intros Hin. exists a. now apply In_firstn in Hin.
Qed.

(** A run that returns from [main] went through the whole script. *)
Lemma returned_run (env : Env) (argc : Z) (argv : list string) :
  outcome (run env (main argc argv)) = Returned ->
  exists a, trace (run env (main argc argv)) = script a /\
            passed (script a).
Proof.
  destruct (main_runs env argc argv)
    as [a Ht Hp _ _ | a n e rv _ _ _ _ _ _ _ Hres].
  - intros _. now exists a.
  - rewrite Hres. discriminate.
Qed.

Lemma fixed_parts_firstn (n : nat) (t : list Event) :
  fixed_parts (firstn n t) = firstn n (fixed_parts t).
Proof. unfold fixed_parts. now rewrite firstn_map. Qed.

End Prefixes.

Lemma split_cons {A : Type} (x : A) (l pre post : list A) (e : A) :
  x :: l = pre ++ e :: post ->
  (pre = [] /\ e = x /\ post = l) \/
  (exists pre', pre = x :: pre' /\ l = pre' ++ e :: post).
Proof.
  destruct pre as [| y pre]; cbn; intros Heq; injection Heq as -> ->.
  - now left.
  - right. now exists pre.
Qed.

Lemma split_nil {A : Type} (pre post : list A) (e : A) :
  [] = pre ++ e :: post -> False.
Proof. now destruct pre. Qed.

(** All the ways a given list can be cut around one of its elements:
    one goal for each position, with the element and the part after it
    substituted. *)
Ltac cut_at Heq :=
  repeat (apply split_cons in Heq as [(-> & -> & ->) | (? & -> & Heq)]);
  try (now apply split_nil in Heq).

Section Completed.

Context {H : dy_pkcs11_h}.

Lemma passed_uncons e t :
  passed (e :: t) ->
  (checked (call e) = true -> returned e = Some CKR_OK) /\ passed t.
Proof.
  intros Hp. split.
  - apply Hp. now left.
  - intros e' Hin. apply Hp. now right.
Qed.

(** In a script whose tested calls all passed, the nine tested return
    values are [CKR_OK]. *)
Lemma passed_script (a : Answers) :
  passed (script a) ->
  rv_init a = CKR_OK /\ rv_open a = CKR_OK /\ rv_login a = CKR_OK /\
  rv_keys a = CKR_OK /\ rv_sign_init a = CKR_OK /\ rv_query a = CKR_OK /\
  rv_sign a = CKR_OK /\ rv_verify_init a = CKR_OK /\ rv_verify a = CKR_OK.
Proof.
  unfold script. intros Hp.
  repeat (apply passed_uncons in Hp as [?Hrv Hp]; cbn in *).
  repeat split;
    match goal with
    | Hrv : true = true -> Some ?x = _ |- ?x = _ =>
        now injection (Hrv eq_refl)
    end.
Qed.

End Completed.

(** C2, as amended: in every run that reaches the end of [main], the
    token-API calls are, in this order, [C_Initialize], [C_OpenSession],
    [C_Login], [C_GenerateKeyPair], [C_SignInit], [C_Sign] twice,
    [C_VerifyInit], [C_Verify], [C_CloseSession], [C_Finalize], that is
    library initialization, session open, login, key-pair generation,
    signing, verification, session close, library finalization; and
    every call that is followed by another one returned [CKR_OK], except
    that [C_Finalize] follows [C_CloseSession] whatever the latter
    returned. *)
Theorem completed_run_order {H : dy_pkcs11_h}
  (env : Env) (argc : Z) (argv : list string) :
  let r := run env (main argc argv) in
  outcome r = Returned ->
  map fn (token_calls (trace r)) =
    [F_Initialize; F_OpenSession; F_Login; F_GenerateKeyPair; F_SignInit;
     F_Sign; F_Sign; F_VerifyInit; F_Verify; F_CloseSession; F_Finalize] /\
  steps (trace r) =
    [LibraryInit; SessionOpen; UserLogin; KeyPairGeneration; Signing;
     Verification; SessionClose; LibraryFinalize] /\
  forall (pre post : list Event) (e : Event),
    filter (fun e => token_api (call e)) (trace r) = pre ++ e :: post ->
    post <> [] ->
    fn (call e) <> F_CloseSession ->
    returned e = Some CKR_OK.
Proof.
  intros r Hres.
  destruct (returned_run env argc argv Hres) as (a & Ht & Hp).
  fold r in Ht. rewrite Ht.
  split; [ reflexivity | split; [ reflexivity | ] ].
  apply passed_script in Hp
    as (HI & HO & HL & HG & HSI & HQ & HS & HVI & HV).
  intros pre post e Hcut Hpost Hfn.
  cbn in Hcut.
  cut_at Hcut; cbn in *; try congruence.
Qed.

Lemma completed_run_order_witness :
  let r := run (@all_ok cryptoki) (@main cryptoki 1 []) in
  outcome r = Returned /\
  map fn (token_calls (trace r)) =
    [F_Initialize; F_OpenSession; F_Login; F_GenerateKeyPair; F_SignInit;
     F_Sign; F_Sign; F_VerifyInit; F_Verify; F_CloseSession; F_Finalize].
Proof.
  split.
  - reflexivity.
  - apply (@completed_run_order cryptoki (@all_ok cryptoki) 1 []). reflexivity.
Defined.

(** C2 as the specification words it fails at its last step: the run
    completes although [C_CloseSession] failed, so [C_Finalize] is
    executed after a step that did not return success. *)
Lemma finalize_follows_failed_close :
  let r := run close_fails (@main cryptoki 1 []) in
  ~ (outcome r = Returned ->
     steps (trace r) =
       [LibraryInit; SessionOpen; UserLogin; KeyPairGeneration; Signing;
        Verification; SessionClose; LibraryFinalize] /\
     forall (pre post : list Event) (e : Event),
       filter (fun e => token_api (call e)) (trace r) = pre ++ e :: post ->
       post <> [] ->
       returned e = Some (@CKR_OK cryptoki)).
Proof.
  intros r Hclaim.
  destruct (Hclaim eq_refl) as [_ Hok].
  specialize (Hok (firstn 9 (filter (fun e => token_api (call e)) (trace r)))
                [{| call := C_Finalize NULL; answer := 0 |}]
                {| call := C_CloseSession 7; answer := 5 |}
                eq_refl).
  discriminate Hok. discriminate.
Qed.




(** One goal for each length [n <= 12] of an initial segment of the
    script, with the segment written out in [Ht]. *)
Ltac prefix_cases n Ht k :=
  lazymatch k with
  | O => exfalso; lia
  | S ?k' =>
      destruct n as [| n];
      [ cbn [firstn script] in Ht | prefix_cases n Ht k' ]
  end.

Tactic Notation "each_prefix" ident(n) hyp(Ht) :=
  prefix_cases n Ht 13%nat.

(** One goal for each element of a list that is written out. *)
Ltac each_member Hin :=
  cbn [In] in Hin;
  repeat (destruct Hin as [<- | Hin]);
  [ .. | contradiction Hin ].

(** One goal for each position [n < 12] of the script at which a run can
    have stopped, with the failed call substituted in [Hn]'s place. *)
Ltac stop_cases n Hn Hc k :=
  lazymatch k with
  | O => destruct n; discriminate Hn
  | S ?k' =>
      destruct n as [| n];
      [ cbn in Hn; injection Hn as <-; try discriminate Hc
      | stop_cases n Hn Hc k' ]
  end.

Tactic Notation "each_stop" ident(n) hyp(Hn) hyp(Hc) :=
  stop_cases n Hn Hc 12%nat.

(** A call is reached, or the run was stopped before it. *)
Ltac reached_or_stopped Ht Hres Hret Hko rv :=
  first
    [ left; rewrite Ht; reflexivity
    | right; split;
      [ exact Hres
      | do 2 eexists; exists rv;
        split; [ exact Ht | ];
        split; [ cbn; tauto | ];
        split; [ exact Hret | exact Hko ] ] ].


(** C6, as amended: there is no looping or retry.  In every run each
    token-API function is called at most once, except [C_Sign], which is
    called at most twice (once for the length, once for the signature);
    and the calls of the run are an initial segment of the one sequence
    written out below, whatever the arguments of [main] and the answers
    of the environment are.  In that sequence every parameter is a
    constant of the program; only the values that the library and the
    allocator handed back (session and key handles, the signature buffer,
    the lengths around it) vary from run to run, and they stand as 0 and
    [NULL]. *)
Theorem calls_follow_one_sequence {H : dy_pkcs11_h}
  (env : Env) (argc : Z) (argv : list string) (f : Function) :
  let t := trace (run env (main argc argv)) in
  (calls_to f t <= if Function_eqb f F_Sign then 2 else 1)%nat /\
  exists n : nat,
    fixed_parts t =
    firstn n
      [ C_Initialize NULL;
        C_OpenSession 0 (N.lor CKF_SERIAL_SESSION CKF_RW_SESSION)
          NULL NULL (addr_of "hSession" 0);
        C_Login 0 CKU_USER (addr_of "password" [x00]) 0;
        C_GenerateKeyPair 0
          (addr_of "ecdsa_gen"
             {| mechanism := CKM_EC_KEY_PAIR_GEN; pParameter := NULL;
                ulParameterLen := 0 |})
          (addr_of "pub_template"
             [ {| type := CKA_TOKEN;
                  pValue := addr_of "ck_false" (Bool CK_FALSE);
                  ulValueLen := sizeof_CK_BBOOL |};
               {| type := CKA_EC_PARAMS;
                  pValue :=
                    addr_of "p256_curve"
                      (Bytes
                         [x06; x08; x2a; x86; x48; xce; x3d; x03; x01;
                          x07]);
                  ulValueLen := 10 |} ])
          2
          (addr_of "prv_template"
             [ {| type := CKA_TOKEN;
                  pValue := addr_of "ck_true" (Bool CK_TRUE);
                  ulValueLen := sizeof_CK_BBOOL |};
               {| type := CKA_SIGN;
                  pValue := addr_of "ck_true" (Bool CK_TRUE);
                  ulValueLen := sizeof_CK_BBOOL |} ])
          2 (addr_of "pub_key" 0) (addr_of "prv_key" 0);
        C_SignInit 0
          (addr_of "ecdsa_sign"
             {| mechanism := CKM_ECDSA_SHA256; pParameter := NULL;
                ulParameterLen := 0 |})
          0;
        C_Sign 0 (addr_of "data_to_sign" (c_str "data to sign")) 13 NULL
          (addr_of "signature_len" None);
        malloc 0;
        C_Sign 0 (addr_of "data_to_sign" (c_str "data to sign")) 13 NULL
          (addr_of "signature_len" (Some 0));
        C_VerifyInit 0
          (addr_of "ecdsa_sign"
             {| mechanism := CKM_ECDSA_SHA256; pParameter := NULL;
                ulParameterLen := 0 |})
          0;
        C_Verify 0 (addr_of "data_to_sign" (c_str "data to sign")) 13
          NULL 0;
        C_CloseSession 0;
        C_Finalize NULL ].
Proof.
  intros t. subst t.
  destruct (trace_prefix env argc argv) as (a & n & Hle & Ht & Hp & _).
  rewrite Ht. split.
  - clear Ht. unfold calls_to.
    do 13 (destruct n as [| n]; [ destruct f; cbn; lia | ]).
    exfalso; lia.
  - exists n. now rewrite fixed_parts_firstn.
Qed.

(** C6 as the specification words it fails on both counts.  In the
    successful run [C_Sign] is invoked twice; and the parameters are not
    all fixed: against a library and an allocator that hand out other
    handles, another length and another block, [C_VerifyInit] has
    another session and another key, and [C_Verify] another session,
    another buffer and another signature length. *)
Lemma sign_twice_and_handles_vary :
  let r := run (@all_ok cryptoki) (@main cryptoki 1 []) in
  let r' := run other_answers (@main cryptoki 1 []) in
  let mech :=
    addr_of "ecdsa_sign"
      {| mechanism := 0x1044; pParameter := NULL; ulParameterLen := 0 |} in
  let data := addr_of "data_to_sign" (c_str "data to sign") in
  ~ (forall f : Function,
        f <> F_malloc -> (calls_to f (trace r) <= 1)%nat) /\
  ~ (forall (i : nat) (c c' : Call),
        nth_error (map call (trace r)) i = Some c ->
        nth_error (map call (trace r')) i = Some c' ->
        c = c') /\
  firstn 2 (skipn 8 (map call (trace r))) =
    [C_VerifyInit 7 mech 11; C_Verify 7 data 13 (Block 1) 64] /\
  firstn 2 (skipn 8 (map call (trace r'))) =
    [C_VerifyInit 8 mech 21; C_Verify 8 data 13 (Block 2) 72].
Proof.
  intros r r' mech data. split; [ | split; [ | split; reflexivity ] ].
  - intros Hclaim.
    assert (Hsign : (calls_to F_Sign (trace r) <= 1)%nat)
      by (apply Hclaim; discriminate).
    vm_compute in Hsign. lia.
  - intros Hclaim.
    specialize (Hclaim 9%nat
                  (C_Verify 7 data 13 (Block 1) 64)
                  (C_Verify 8 data 13 (Block 2) 72)
                  eq_refl eq_refl).
    discriminate Hclaim.
Qed.

(** ** The session *)

(** C7: the slot passed to [C_OpenSession] is 0 and the handle is
    received in [hSession]; no call before it takes a session; every call
    after it that takes a session is given the handle that
    [C_OpenSession] left in [hSession]; and the address of [hSession] is
    given to no other call, so that nothing writes it a second time. *)
Theorem one_session_handle {H : dy_pkcs11_h}
  (env : Env) (argc : Z) (argv : list string)
  (pre post : list Event) (o : Event)
  (slot : CK_SLOT_ID) (flags : CK_FLAGS) (pApplication Notify : ptr)
  (ph : ref CK_SESSION_HANDLE) :
  let r := run env (main argc argv) in
  trace r = pre ++ o :: post ->
  call o = C_OpenSession slot flags pApplication Notify ph ->
  slot = 0 /\ ph = addr_of "hSession" 0 /\
  (forall e, In e pre -> session_arg (call e) = None) /\
  (exists h : CK_SESSION_HANDLE,
      session_out o = Some h /\
      forall e h', In e post -> session_arg (call e) = Some h' -> h' = h) /\
  (forall e, In e (pre ++ post) ->
             ~ In (AddrOf "hSession") (pointer_args (call e))).
Proof.
  intros r Htr Hcall. subst r.
  destruct (trace_prefix env argc argv) as (a & n & Hle & Ht & Hp & _).
  rewrite Htr in Ht. symmetry in Ht.
  each_prefix n Ht; cut_at Ht; cbn in Hcall; try discriminate Hcall;
    injection Hcall as <- <- <- <- <-;
    (split; [ reflexivity | split; [ reflexivity | split; [ | split ] ] ];
     [ intros e Hin; each_member Hin; reflexivity
     | exists (h_session a); split; [ reflexivity | ];
       intros e h' Hin Hs; each_member Hin; cbn in Hs; congruence
     | intros e Hin; cbn [app] in Hin; each_member Hin; cbn;
       destruct (p_signature a); intuition discriminate ]).
Qed.

Lemma one_session_handle_witness :
  let r := run (@all_ok cryptoki) (@main cryptoki 1 []) in
  let o :=
    {| call := C_OpenSession 0 6 NULL NULL (addr_of "hSession" 0);
       answer := (0, 7) |} in
  trace r = firstn 1 (trace r) ++ o :: skipn 2 (trace r) /\
  session_out o = Some 7 /\
  forall e h', In e (skipn 2 (trace r)) ->
               session_arg (call e) = Some h' -> h' = 7.
Proof.
  intros r o.
  destruct (@one_session_handle cryptoki (@all_ok cryptoki) 1 []
              (firstn 1 (trace r)) (skipn 2 (trace r)) o
              0 6 NULL NULL (addr_of "hSession" 0) eq_refl eq_refl)
    as (_ & _ & _ & (h & Hout & Hall) & _).
  split; [ reflexivity | split; [ reflexivity | ] ].
  injection Hout as <-. exact Hall.
Defined.

(** ** The arguments of the calls *)

(** C4: the cryptographic choices reach the library as literal
    constants, whatever the environment does.  The key-pair generation,
    [C_SignInit] and [C_VerifyInit] are each called, once, in every run
    that a failure of an earlier call has not stopped.  Key-pair
    generation is given the mechanism [CKM_EC_KEY_PAIR_GEN] without
    parameter, and a public-key template that carries, as
    [CKA_EC_PARAMS], the ten bytes 06 08 2a 86 48 ce 3d 03 01 07;
    [C_SignInit] and [C_VerifyInit] are given one and the same
    mechanism, [CKM_ECDSA_SHA256] with a null parameter. *)
Theorem mechanisms_are_literal {H : dy_pkcs11_h}
  (env : Env) (argc : Z) (argv : list string) :
  let r := run env (main argc argv) in
  (calls_to F_GenerateKeyPair (trace r) = 1%nat \/
   stopped_by [F_Initialize; F_OpenSession; F_Login] r) /\
  (calls_to F_SignInit (trace r) = 1%nat \/
   stopped_by [F_Initialize; F_OpenSession; F_Login; F_GenerateKeyPair] r) /\
  (calls_to F_VerifyInit (trace r) = 1%nat \/
   stopped_by
     [F_Initialize; F_OpenSession; F_Login; F_GenerateKeyPair; F_SignInit;
      F_Sign] r) /\
  forall e : Event,
    In e (trace r) ->
    match call e with
    | C_GenerateKeyPair _ m pub _ _ _ _ _ =>
        m = addr_of "ecdsa_gen"
              {| mechanism := CKM_EC_KEY_PAIR_GEN; pParameter := NULL;
                 ulParameterLen := 0 |} /\
        addr pub = AddrOf "pub_template" /\
        In {| type := CKA_EC_PARAMS;
              pValue :=
                addr_of "p256_curve"
                  (Bytes
                     [x06; x08; x2a; x86; x48; xce; x3d; x03; x01; x07]);
              ulValueLen := 10 |}
           (pointee pub)
    | C_SignInit _ m _ | C_VerifyInit _ m _ =>
        m = addr_of "ecdsa_sign"
              {| mechanism := CKM_ECDSA_SHA256; pParameter := NULL;
                 ulParameterLen := 0 |}
    | _ => True
    end.
Proof.
  intros r.
  assert (Hargs :
            forall e : Event,
              In e (trace r) ->
              match call e with
              | C_GenerateKeyPair _ m pub _ _ _ _ _ =>
                  m = addr_of "ecdsa_gen"
                        {| mechanism := CKM_EC_KEY_PAIR_GEN;
                           pParameter := NULL; ulParameterLen := 0 |} /\
                  addr pub = AddrOf "pub_template" /\
                  In the_curve_attribute (pointee pub)
              | C_SignInit _ m _ | C_VerifyInit _ m _ =>
                  m = the_sign_mechanism
              | _ => True
              end).
  { intros e Hin.
    apply trace_in_script in Hin as [a Hin].
    unfold script in Hin. each_member Hin; cbn; auto. }
  destruct (main_runs env argc argv)
    as [a Ht _ _ _ | a n e rv Ht Hn Hc Hret Hko _ _ Hres];
    fold r in Ht.
  - repeat split; try exact Hargs; left; rewrite Ht; reflexivity.
  - fold r in Hres. clear Hargs.
    each_stop n Hn Hc;
      (split; [ reached_or_stopped Ht Hres Hret Hko rv | ];
       split; [ reached_or_stopped Ht Hres Hret Hko rv | ];
       split; [ reached_or_stopped Ht Hres Hret Hko rv | ];
       intros e' Hin;
       apply trace_in_script in Hin as [a' Hin];
       unfold script in Hin; each_member Hin; cbn; auto).
Qed.

Lemma mechanisms_are_literal_witness :
  let r := run (@all_ok cryptoki) (@main cryptoki 1 []) in
  let nothing := {| call := C_Finalize NULL; answer := 0 |} in
  let keys := nth 3 (trace r) nothing in
  let sinit := nth 4 (trace r) nothing in
  let vinit := nth 8 (trace r) nothing in
  (In keys (trace r) /\ In sinit (trace r) /\ In vinit (trace r)) /\
  map (fun e => fn (call e)) [keys; sinit; vinit] =
    [F_GenerateKeyPair; F_SignInit; F_VerifyInit] /\
  match call keys with
  | C_GenerateKeyPair _ m pub _ _ _ _ _ =>
      m = addr_of "ecdsa_gen"
            {| mechanism := 0x1040; pParameter := NULL;
               ulParameterLen := 0 |} /\
      addr pub = AddrOf "pub_template" /\
      In {| type := 0x180;
            pValue :=
              addr_of "p256_curve"
                (Bytes [x06; x08; x2a; x86; x48; xce; x3d; x03; x01; x07]);
            ulValueLen := 10 |}
         (pointee pub)
  | _ => False
  end /\
  match call sinit, call vinit with
  | C_SignInit _ m _, C_VerifyInit _ m' _ =>
      m = addr_of "ecdsa_sign"
            {| mechanism := 0x1044; pParameter := NULL;
               ulParameterLen := 0 |} /\
      m' = m
  | _, _ => False
  end.
Proof.
  intros r nothing keys sinit vinit.
  assert (Hkeys : In keys (trace r)) by (vm_compute; tauto).
  assert (Hsinit : In sinit (trace r)) by (vm_compute; tauto).
  assert (Hvinit : In vinit (trace r)) by (vm_compute; tauto).
  destruct (@mechanisms_are_literal cryptoki (@all_ok cryptoki) 1 [])
    as (_ & _ & _ & Hargs).
  split; [ exact (conj Hkeys (conj Hsinit Hvinit)) | ].
  split; [ reflexivity | ].
  split; [ exact (Hargs keys Hkeys) | ].
  split; [ exact (Hargs sinit Hsinit) | ].
  exact (eq_trans (Hargs vinit Hvinit) (eq_sym (Hargs sinit Hsinit))).
Defined.

(** C9: what is signed and verified is the array [data_to_sign], the
    twelve characters of "data to sign" followed by the NUL that ends
    the literal; the length given to both [C_Sign] calls and to
    [C_Verify] is 13, the size of that array.  [C_Sign] is called twice
    and [C_Verify] once in every run that a failure of an earlier call
    has not stopped. *)
Theorem data_is_thirteen_bytes {H : dy_pkcs11_h}
  (env : Env) (argc : Z) (argv : list string) :
  let r := run env (main argc argv) in
  (calls_to F_Sign (trace r) = 2%nat \/
   stopped_by
     [F_Initialize; F_OpenSession; F_Login; F_GenerateKeyPair; F_SignInit;
      F_Sign] r) /\
  (calls_to F_Verify (trace r) = 1%nat \/
   stopped_by
     [F_Initialize; F_OpenSession; F_Login; F_GenerateKeyPair; F_SignInit;
      F_Sign; F_VerifyInit] r) /\
  forall e : Event,
    In e (trace r) ->
    match call e with
    | C_Sign _ d n _ _ | C_Verify _ d n _ _ =>
        d = addr_of "data_to_sign"
              (list_byte_of_string "data to sign" ++ [x00]) /\
        List.length (list_byte_of_string "data to sign") = 12%nat /\
        n = sizeof (pointee d) /\
        n = 13
    | _ => True
    end.
Proof.
  intros r.
  assert (Hargs :
            forall e : Event,
              In e (trace r) ->
              match call e with
              | C_Sign _ d n _ _ | C_Verify _ d n _ _ =>
                  d = the_data /\
                  List.length (list_byte_of_string "data to sign") =
                    12%nat /\
                  n = sizeof (pointee d) /\
                  n = 13
              | _ => True
              end).
  { intros e Hin.
    apply trace_in_script in Hin as [a Hin].
    unfold script in Hin. each_member Hin; cbn; auto. }
  destruct (main_runs env argc argv)
    as [a Ht _ _ _ | a n e rv Ht Hn Hc Hret Hko _ _ Hres];
    fold r in Ht.
  - repeat split; try exact Hargs; left; rewrite Ht; reflexivity.
  - fold r in Hres.
    each_stop n Hn Hc;
      (split; [ reached_or_stopped Ht Hres Hret Hko rv | ];
       split; [ reached_or_stopped Ht Hres Hret Hko rv | ];
       exact Hargs).
Qed.

Lemma data_is_thirteen_bytes_witness :
  let r := run (@all_ok cryptoki) (@main cryptoki 1 []) in
  let data := addr_of "data_to_sign" (c_str "data to sign") in
  let query :=
    {| call := C_Sign 7 data 13 NULL (addr_of "signature_len" None);
       answer := (0, 64) |} in
  let sign :=
    {| call :=
         C_Sign 7 data 13 (Block 1) (addr_of "signature_len" (Some 64));
       answer := (0, 64) |} in
  let verify :=
    {| call := C_Verify 7 data 13 (Block 1) 64; answer := 0 |} in
  (In query (trace r) /\ In sign (trace r) /\ In verify (trace r)) /\
  calls_to F_Sign (trace r) = 2%nat /\
  calls_to F_Verify (trace r) = 1%nat /\
  13 = sizeof (c_str "data to sign").
Proof.
  intros r data query sign verify.
  assert (Hquery : In query (trace r)) by (vm_compute; tauto).
  assert (Hsign : In sign (trace r)) by (vm_compute; tauto).
  assert (Hverify : In verify (trace r)) by (vm_compute; tauto).
  destruct (@data_is_thirteen_bytes cryptoki (@all_ok cryptoki) 1 [])
    as (Htwice & Honce & Hargs).
  split; [ exact (conj Hquery (conj Hsign Hverify)) | ].
  destruct Htwice as [Htwice | (Hexit & _)]; [ | discriminate Hexit ].
  destruct Honce as [Honce | (Hexit & _)]; [ | discriminate Hexit ].
  split; [ exact Htwice | split; [ exact Honce | ] ].
  destruct (Hargs verify Hverify) as (_ & _ & Hn & _).
  exact Hn.
Defined.

(** C10: the login is always that of the normal user with an empty
    PIN: the user type is [CKU_USER], the PIN pointer is the array
    [password], which holds nothing but the terminating NUL, and the
    PIN length is [strlen(password)], that is 0. *)
Theorem login_has_empty_pin {H : dy_pkcs11_h}
  (env : Env) (argc : Z) (argv : list string) (e : Event) :
  In e (trace (run env (main argc argv))) ->
  match call e with
  | C_Login _ user pin len =>
      user = CKU_USER /\
      pin = addr_of "password" [x00] /\
      len = strlen (pointee pin) /\
      len = 0
  | _ => True
  end.
Proof.
  intros Hin.
  apply trace_in_script in Hin as [a Hin].
  unfold script in Hin. each_member Hin; cbn; auto.
Qed.

Lemma login_has_empty_pin_witness :
  let r := run (@all_ok cryptoki) (@main cryptoki 1 []) in
  let e :=
    {| call := C_Login 7 1 (addr_of "password" [x00]) 0; answer := 0 |} in
  In e (trace r) /\ 1 = @CKU_USER cryptoki /\ 0 = strlen [x00].
Proof.
  intros r e.
  assert (Hin : In e (trace r)) by (vm_compute; tauto).
  split; [ exact Hin | ].
  destruct (@login_has_empty_pin cryptoki (@all_ok cryptoki) 1 [] e Hin)
    as (Huser & _ & Hlen & _).
  split; [ exact Huser | exact Hlen ].
Defined.

(** ** Signing and verifying *)

Section Passed.

Context {H : dy_pkcs11_h}.

(** What [passed] says about a list that is written out. *)
Lemma passed_here e t :
  passed (e :: t) -> checked (call e) = true -> returned e = Some CKR_OK.
Proof. intros Hp. apply Hp. now left. Qed.

Lemma passed_later e t : passed (e :: t) -> passed t.
Proof. intros Hp e' Hin. apply Hp. now right. Qed.

End Passed.

(** C3: the verification works on what the signing produced.  Whenever
    [C_Verify] is called, the six calls before it are the key-pair
    generation, [C_SignInit], the two [C_Sign] calls with the allocation
    between them, and [C_VerifyInit]; all five token-API calls among them
    returned [CKR_OK]; [C_Verify] has the data pointer and the data
    length of the [C_Sign] that produced the signature, the buffer that
    this [C_Sign] filled (the one [malloc] handed out) and the signature
    length that it left in [signature_len]; [C_VerifyInit] was given the
    public key of the generated pair and [C_SignInit] its private key. *)
Theorem verify_takes_what_sign_made {H : dy_pkcs11_h}
  (env : Env) (argc : Z) (argv : list string)
  (pre post : list Event) (v : Event)
  (hS : CK_SESSION_HANDLE) (d : ref (list CK_BYTE)) (n : CK_ULONG)
  (sg : ptr) (sl : CK_ULONG) :
  let r := run env (main argc argv) in
  trace r = pre ++ v :: post ->
  call v = C_Verify hS d n sg sl ->
  exists (before : list Event) (keys sinit query alloc sign vinit : Event),
    pre = before ++ [keys; sinit; query; alloc; sign; vinit] /\
    (fn (call keys) = F_GenerateKeyPair /\ returned keys = Some CKR_OK) /\
    (exists pub prv m,
        keys_out keys = Some (pub, prv) /\
        call sinit = C_SignInit hS m prv /\
        call vinit = C_VerifyInit hS m pub) /\
    (returned sinit = Some CKR_OK /\ returned vinit = Some CKR_OK) /\
    block_out alloc = Some sg /\
    (exists l, call sign = C_Sign hS d n sg l) /\
    returned sign = Some CKR_OK /\
    length_out sign = Some sl.
Proof.
  intros r Htr Hcall. subst r.
  destruct (trace_prefix env argc argv) as (a & k & Hle & Ht & Hp & Hlast).
  rewrite Htr in Ht. symmetry in Ht.
  each_prefix k Ht; cut_at Ht; cbn in Hcall; try discriminate Hcall;
    injection Hcall as <- <- <- <- <-;
    cbn [Nat.sub firstn script] in Hp;
    do 3 apply passed_later in Hp;
    pose proof (passed_here _ _ Hp eq_refl) as Hkeys;
    apply passed_later in Hp;
    pose proof (passed_here _ _ Hp eq_refl) as Hsinit;
    do 3 apply passed_later in Hp;
    pose proof (passed_here _ _ Hp eq_refl) as Hsign;
    apply passed_later in Hp;
    pose proof (passed_here _ _ Hp eq_refl) as Hvinit;
    (eexists (firstn 3 (script a)), _, _, _, _, _, _;
     split; [ reflexivity | ];
     split; [ split; [ reflexivity | exact Hkeys ] | ];
     split; [ do 3 eexists; repeat split | ];
     split; [ split; [ exact Hsinit | exact Hvinit ] | ];
     split; [ reflexivity | ];
     split; [ eexists; reflexivity | ];
     split; [ exact Hsign | reflexivity ]).
Qed.

Lemma verify_takes_what_sign_made_witness :
  let r := run (@all_ok cryptoki) (@main cryptoki 1 []) in
  let v :=
    {| call :=
         C_Verify 7 (addr_of "data_to_sign" (c_str "data to sign")) 13
           (Block 1) 64;
       answer := 0 |} in
  trace r = firstn 9 (trace r) ++ v :: skipn 10 (trace r) /\
  exists (before : list Event) (keys sinit query alloc sign vinit : Event),
    firstn 9 (trace r) =
      before ++ [keys; sinit; query; alloc; sign; vinit] /\
    block_out alloc = Some (Block 1) /\
    length_out sign = Some 64.
Proof.
  intros r v.
  split; [ reflexivity | ].
  destruct (@verify_takes_what_sign_made cryptoki (@all_ok cryptoki) 1 []
              (firstn 9 (trace r)) (skipn 10 (trace r)) v
              7 (addr_of "data_to_sign" (c_str "data to sign")) 13
              (Block 1) 64 eq_refl eq_refl)
    as (before & keys & sinit & query & alloc & sign & vinit
        & Hpre & _ & _ & _ & Hblock & _ & _ & Hlen).
  exists before, keys, sinit, query, alloc, sign, vinit.
  split; [ exact Hpre | split; [ exact Hblock | exact Hlen ] ].
Defined.

(** C8: signing is the two-call pattern.  The first [C_Sign] of a run has
    a null signature buffer and the still unset [signature_len]; when it
    returns [CKR_OK], the next two calls are [malloc] of exactly the
    length it left in [signature_len], and [C_Sign] with the same
    session, data pointer and data length, with [signature_len] holding
    that length, and with whatever [malloc] gave back as the buffer.
    Nothing is tested between the two: a null result of [malloc] goes to
    the library as the buffer of the second [C_Sign]. *)
Theorem sign_asks_length_then_signs {H : dy_pkcs11_h}
  (env : Env) (argc : Z) (argv : list string)
  (pre post : list Event) (q : Event) :
  let r := run env (main argc argv) in
  trace r = pre ++ q :: post ->
  fn (call q) = F_Sign ->
  calls_to F_Sign pre = 0%nat ->
  exists (hS : CK_SESSION_HANDLE) (d : ref (list CK_BYTE)) (n : CK_ULONG),
    call q = C_Sign hS d n NULL (addr_of "signature_len" None) /\
    (returned q = Some CKR_OK ->
     exists (len : CK_ULONG) (m : allocation) (sign : Event)
            (rest : list Event),
       length_out q = Some len /\
       post = {| call := malloc len; answer := m |} :: sign :: rest /\
       call sign =
         C_Sign hS d n (CK_BYTE_PTR m)
           (addr_of "signature_len" (Some len)) /\
       (m = OutOfMemory ->
        call sign =
          C_Sign hS d n NULL (addr_of "signature_len" (Some len)))).
Proof.
  intros r Htr Hfn Hfirst. subst r.
  destruct (trace_prefix env argc argv) as (a & k & Hle & Ht & Hp & Hlast).
  rewrite Htr in Ht. symmetry in Ht.
  each_prefix k Ht; cut_at Ht; cbn in Hfn; try discriminate Hfn;
    cbn in Hfirst; try discriminate Hfirst;
    (exists (h_session a), the_data, 13; split; [ reflexivity | ];
     intros Hok;
     first
       [ exists (len_query a), (p_signature a); do 2 eexists;
         split; [ reflexivity | ];
         split; [ reflexivity | ];
         split; [ reflexivity | now intros -> ]
       | exfalso;
         destruct Hlast as [Hk | (e & rv & Hn & Hc & Hret & Hko)];
         [ discriminate Hk | ];
         cbn in Hn; injection Hn as <-; cbn in Hc, Hret, Hok;
         congruence ]).
Qed.

Lemma sign_asks_length_then_signs_witness :
  let r := run (@malloc_fails cryptoki) (@main cryptoki 1 []) in
  let q :=
    {| call :=
         C_Sign 7 (addr_of "data_to_sign" (c_str "data to sign")) 13 NULL
           (addr_of "signature_len" None);
       answer := (0, 64) |} in
  (trace r = firstn 5 (trace r) ++ q :: skipn 6 (trace r) /\
   fn (call q) = F_Sign /\
   calls_to F_Sign (firstn 5 (trace r)) = 0%nat) /\
  exists (hS : CK_SESSION_HANDLE) (d : ref (list CK_BYTE)) (n : CK_ULONG),
    call q = C_Sign hS d n NULL (addr_of "signature_len" None).
Proof.
  intros r q.
  split; [ split; [ reflexivity | split; reflexivity ] | ].
  destruct (@sign_asks_length_then_signs cryptoki (@malloc_fails cryptoki)
              1 [] (firstn 5 (trace r)) (skipn 6 (trace r)) q
              eq_refl eq_refl eq_refl)
    as (hS & d & n & Hq & _).
  now exists hS, d, n.
Defined.

(** When the allocator is out of memory and the library agrees to every
    call, the run goes through to the end: the second [C_Sign] and
    [C_Verify] are handed the null pointer as the signature buffer. *)
Example null_buffer_reaches_the_library :
  let r := run (@malloc_fails cryptoki) (@main cryptoki 1 []) in
  skipn 6 (map call (trace r)) =
    [ malloc 64;
      C_Sign 7 (addr_of "data_to_sign" (c_str "data to sign")) 13 NULL
        (addr_of "signature_len" (Some 64));
      C_VerifyInit 7
        (addr_of "ecdsa_sign"
           {| mechanism := 0x1044; pParameter := NULL;
              ulParameterLen := 0 |})
        11;
      C_Verify 7 (addr_of "data_to_sign" (c_str "data to sign")) 13 NULL 64;
      C_CloseSession 7;
      C_Finalize NULL ] /\
  stdout r = "" /\ outcome r = Returned.
Proof. repeat split. Qed.

(** ** When the program exits, and when it does not *)

(** The program leaves through [exit] only because of a failure: the
    status is then -1, the last call of the run is a tested call that
    returned something other than [CKR_OK], what was printed is that
    value, and every tested call before it returned [CKR_OK]. *)
Theorem exit_only_after_failure {H : dy_pkcs11_h}
  (env : Env) (argc : Z) (argv : list string) (status : Z) :
  let r := run env (main argc argv) in
  outcome r = Exited status ->
  status = (-1)%Z /\
  exists (pre : list Event) (e : Event) (rv : CK_RV),
    trace r = pre ++ [e] /\
    checked (call e) = true /\
    returned e = Some rv /\
    rv <> CKR_OK /\
    stdout r = ("Error " ++ fmt_08lx rv ++ newline)%string /\
    forall e', In e' pre -> checked (call e') = true ->
               returned e' = Some CKR_OK.
Proof.
  intros r Hexit.
  destruct (main_runs env argc argv)
    as [a _ _ _ Hres | a n e rv Ht Hn Hc Hret Hko Hp Hout Hres];
    fold r in Hres; rewrite Hres in Hexit.
  - discriminate Hexit.
  - injection Hexit as <-. split; [ reflexivity | ].
    exists (firstn n (script a)), e, rv. now repeat split.
Qed.

Lemma exit_only_after_failure_witness :
  let r := run login_fails (@main cryptoki 1 []) in
  outcome r = Exited (-1) /\ (-1 = -1)%Z.
Proof.
  intros r. split; [ reflexivity | ].
  exact (proj1 (@exit_only_after_failure cryptoki login_fails 1 [] (-1)
                  eq_refl)).
Defined.



(** If every call of the run that the program tests returned [CKR_OK],
    the program ran to the end of [main] and printed nothing, whatever
    [malloc], [C_CloseSession] and [C_Finalize] answered: it made all
    twelve calls, the two closing ones included, and returned. *)
Theorem agreeing_library_gives_full_run {H : dy_pkcs11_h}
  (env : Env) (argc : Z) (argv : list string) :
  let r := run env (main argc argv) in
  (forall e : Event,
      In e (trace r) -> checked (call e) = true ->
      returned e = Some CKR_OK) ->
  outcome r = Returned /\ stdout r = "" /\
  List.length (trace r) = 12%nat /\
  calls_to F_CloseSession (trace r) = 1%nat /\
  calls_to F_Finalize (trace r) = 1%nat.
Proof.
  intros r Hagree.
  destruct (main_runs env argc argv)
    as [a Ht _ Hout Hres | a n e rv Ht _ Hc Hret Hko _ _ _];
    fold r in Ht.
  - rewrite Ht. now repeat split.
  - exfalso.
    assert (Hin : In e (trace r)).
    { rewrite Ht. apply in_or_app. right. now left. }
    specialize (Hagree e Hin Hc). congruence.
Qed.

Lemma agreeing_library_gives_full_run_witness :
  let r := run (@malloc_fails cryptoki) (@main cryptoki 1 []) in
  (forall e : Event,
      In e (trace r) -> checked (call e) = true ->
      returned e = Some (@CKR_OK cryptoki)) /\
  outcome r = Returned /\
  List.length (trace r) = 12%nat.
Proof.
  intros r.
  assert (Hagree :
            forall e : Event,
              In e (trace r) -> checked (call e) = true ->
              returned e = Some (@CKR_OK cryptoki)).
  { intros e Hin Hc. vm_compute in Hin.
    repeat (destruct Hin as [<- | Hin]);
      first [ reflexivity | discriminate Hc | contradiction Hin ]. }
  split; [ exact Hagree | ].
  destruct (@agreeing_library_gives_full_run cryptoki
              (@malloc_fails cryptoki) 1 [] Hagree)
    as (Hret & _ & Hlen & _).
  exact (conj Hret Hlen).
Defined.

(** ** Keys and templates *)

(** In every run, also one that stops before the verification, a key
    handle is used only after it was generated: the call before
    [C_SignInit] is the key-pair generation, it returned [CKR_OK], and
    the key given to [C_SignInit] is the private key it produced; and
    the key given to [C_VerifyInit] is the public key that the same
    generation produced. *)
Theorem keys_are_used_as_generated {H : dy_pkcs11_h}
  (env : Env) (argc : Z) (argv : list string)
  (pre post : list Event) (e : Event) :
  let r := run env (main argc argv) in
  trace r = pre ++ e :: post ->
  match call e with
  | C_SignInit _ _ key =>
      exists (before : list Event) (keys : Event) (pub : CK_OBJECT_HANDLE),
        pre = before ++ [keys] /\
        fn (call keys) = F_GenerateKeyPair /\
        returned keys = Some CKR_OK /\
        keys_out keys = Some (pub, key)
  | C_VerifyInit _ _ key =>
      exists (before after : list Event) (keys : Event)
             (prv : CK_OBJECT_HANDLE),
        pre = before ++ keys :: after /\
        fn (call keys) = F_GenerateKeyPair /\
        returned keys = Some CKR_OK /\
        keys_out keys = Some (key, prv) /\
        calls_to F_GenerateKeyPair (before ++ after) = 0%nat
  | _ => True
  end.
Proof.
  intros r Htr. subst r.
  destruct (trace_prefix env argc argv) as (a & k & Hle & Ht & Hp & _).
  rewrite Htr in Ht. symmetry in Ht.
  each_prefix k Ht; cut_at Ht; cbn [call script]; try exact I;
    cbn [Nat.sub firstn script] in Hp;
    do 3 apply passed_later in Hp;
    pose proof (passed_here _ _ Hp eq_refl) as Hkeys.
  all: first
         [ exists (firstn 3 (script a)); do 2 eexists;
           split; [ reflexivity | ];
           split; [ reflexivity | ];
           split; [ exact Hkeys | reflexivity ]
         | exists (firstn 3 (script a)),
             (firstn 4 (skipn 4 (script a)));
           do 2 eexists;
           split; [ reflexivity | ];
           split; [ reflexivity | ];
           split; [ exact Hkeys | ];
           split; reflexivity ].
Qed.

Lemma keys_are_used_as_generated_witness :
  let r := run (@all_ok cryptoki) (@main cryptoki 1 []) in
  let e :=
    {| call :=
         C_SignInit 7
           (addr_of "ecdsa_sign"
              {| mechanism := 0x1044; pParameter := NULL;
                 ulParameterLen := 0 |})
           12;
       answer := 0 |} in
  trace r = firstn 4 (trace r) ++ e :: skipn 5 (trace r) /\
  exists (before : list Event) (keys : Event) (pub : CK_OBJECT_HANDLE),
    firstn 4 (trace r) = before ++ [keys] /\
    fn (call keys) = F_GenerateKeyPair /\
    returned keys = Some 0 /\
    keys_out keys = Some (pub, 12).
Proof.
  intros r e. split; [ reflexivity | ].
  exact (@keys_are_used_as_generated cryptoki (@all_ok cryptoki) 1 []
           (firstn 4 (trace r)) (skipn 5 (trace r)) e eq_refl).
Defined.

(** In every key-pair generation the two attribute counts are the
    lengths of the two templates, every attribute's [ulValueLen] is the
    size of the value its [pValue] points at, the public key is asked for
    as a session object on the curve given by [p256_curve], the private
    key as a token object that may sign, and the handles are received in
    [pub_key] and [prv_key]. *)
Theorem templates_are_consistent {H : dy_pkcs11_h}
  (env : Env) (argc : Z) (argv : list string) (e : Event) :
  In e (trace (run env (main argc argv))) ->
  match call e with
  | C_GenerateKeyPair _ _ pub npub prv nprv phpub phprv =>
      npub = countof (pointee pub) /\
      nprv = countof (pointee prv) /\
      Forall (fun a => ulValueLen a = value_size (pointee (pValue a)))
        (pointee pub ++ pointee prv) /\
      map (fun a => (type a, pointee (pValue a))) (pointee pub) =
        [ (CKA_TOKEN, Bool CK_FALSE);
          (CKA_EC_PARAMS,
           Bytes [x06; x08; x2a; x86; x48; xce; x3d; x03; x01; x07]) ] /\
      map (fun a => (type a, pointee (pValue a))) (pointee prv) =
        [ (CKA_TOKEN, Bool CK_TRUE); (CKA_SIGN, Bool CK_TRUE) ] /\
      phpub = addr_of "pub_key" 0 /\
      phprv = addr_of "prv_key" 0
  | _ => True
  end.
Proof.
  intros Hin.
  apply trace_in_script in Hin as [a Hin].
  unfold script in Hin. each_member Hin; cbn [call]; try exact I.
  repeat split. repeat constructor.
Qed.

Lemma templates_are_consistent_witness :
  let r := run (@all_ok cryptoki) (@main cryptoki 1 []) in
  let e := nth 3 (trace r) {| call := C_Finalize NULL; answer := 0 |} in
  In e (trace r) /\
  match call e with
  | C_GenerateKeyPair _ _ pub npub prv nprv _ _ =>
      npub = 2 /\ nprv = 2 /\
      Forall (fun a => ulValueLen a =
                       @value_size cryptoki (pointee (pValue a)))
        (pointee pub ++ pointee prv)
  | _ => False
  end.
Proof.
  intros r e.
  assert (Hin : In e (trace r)) by (vm_compute; tauto).
  split; [ exact Hin | ].
  destruct (@templates_are_consistent cryptoki (@all_ok cryptoki) 1 [] e
              Hin) as (Hpub & Hprv & Hlen & _).
  exact (conj Hpub (conj Hprv Hlen)).
Defined.

(** The program prints exactly when it exits: a run that returns from
    [main] has printed nothing, and a run that exits has printed its
    message. *)
Theorem silent_unless_exit {H : dy_pkcs11_h}
  (env : Env) (argc : Z) (argv : list string) :
  let r := run env (main argc argv) in
  outcome r = Returned <-> stdout r = "".
Proof.
  intros r.
  destruct (main_runs env argc argv)
    as [a _ _ Hout Hres | a n e rv _ _ _ _ _ _ Hout Hres];
    fold r in Hout, Hres; rewrite Hout, Hres; split;
    (reflexivity || discriminate).
Qed.

(** ** The error message *)

Lemma length_append (s t : string) :
  String.length (s ++ t)%string = (String.length s + String.length t)%nat.
Proof. induction s as [| c s IH]; cbn; [ reflexivity | now rewrite IH ]. Qed.

Lemma length_zeros (k : nat) : String.length (zeros k) = k.
Proof. induction k as [| k IH]; cbn; [ reflexivity | now rewrite IH ]. Qed.

Lemma length_digits (d : Hexadecimal.uint) :
  String.length (NilEmpty.string_of_uint d) = Hexadecimal.nb_digits d.
Proof. induction d; cbn; congruence. Qed.

Lemma digits_nonnil (v : N) : N.to_hex_uint v <> Hexadecimal.Nil.
Proof.
  destruct v as [| p]; [ cbn; discriminate | ].
  apply HexadecimalPos.Unsigned.to_uint_nonnil.
Qed.

Lemma digits_string (v : N) :
  NilZero.string_of_uint (N.to_hex_uint v) =
  NilEmpty.string_of_uint (N.to_hex_uint v).
Proof.
  pose proof (digits_nonnil v) as Hnil.
  now destruct (N.to_hex_uint v).
Qed.

(** The value of a digit string is at least its leading part shifted by
    the digits that follow. *)
Lemma of_hex_uint_acc_lower (l : Hexadecimal.uint) :
  forall acc : positive,
    N.pos acc * 16 ^ N.of_nat (Hexadecimal.nb_digits l) <=
    N.pos (Pos.of_hex_uint_acc l acc).
Proof.
  induction l; intros acc;
    cbn [Hexadecimal.nb_digits Pos.of_hex_uint_acc];
    [ cbn [N.of_nat N.pow]; lia | .. ];
    (etransitivity; [ | apply IHl ]);
    rewrite Nat2N.inj_succ, N.pow_succ_r';
    generalize (16 ^ N.of_nat (Hexadecimal.nb_digits l)); intros X; nia.
Qed.

(** A value below [16^8] is written with at most eight digits. *)
Lemma digits_bound (v : N) :
  v < 2 ^ 32 -> (Hexadecimal.nb_digits (N.to_hex_uint v) <= 8)%nat.
Proof.
  intros Hv.
  pose proof (HexadecimalN.Unsigned.of_to v) as Hval.
  pose proof (HexadecimalN.Unsigned.to_of (N.to_hex_uint v)) as Hnorm.
  rewrite Hval in Hnorm.
  destruct (N.to_hex_uint v) as [| l | l | l | l | l | l | l | l | l
                                 | l | l | l | l | l | l | l ] eqn:Hd;
    [ cbn; lia
    | rewrite HexadecimalFacts.unorm_D0 in Hnorm;
      destruct l;
      [ cbn; lia
      | match type of Hnorm with
        | _ = Hexadecimal.unorm ?u =>
            assert (Hne : u <> Hexadecimal.Nil) by discriminate;
            pose proof (HexadecimalFacts.nb_digits_unorm u Hne) as Hle;
            rewrite <- Hnorm in Hle; cbn in Hle; lia
        end .. ]
    | .. ].
  all: cbn [Hexadecimal.nb_digits];
    unfold N.of_hex_uint in Hval; cbn [Pos.of_hex_uint] in Hval;
    match type of Hval with
    | N.pos (Pos.of_hex_uint_acc ?d ?k) = _ =>
        pose proof (of_hex_uint_acc_lower d k) as Hlow;
        rewrite Hval in Hlow;
        assert (Hpow : 16 ^ N.of_nat (Hexadecimal.nb_digits d) < 16 ^ 8)
          by (change (16 ^ 8) with (2 ^ 32); nia)
    end;
    apply N.pow_lt_mono_r_iff in Hpow; lia.
Qed.

(** Leading zeros do not change what a digit string reads as. *)
Lemma read_zeros (k : nat) (s : string) :
  option_map N.of_hex_uint (NilEmpty.uint_of_string (zeros k ++ s)) =
  option_map N.of_hex_uint (NilEmpty.uint_of_string s).
Proof.
  induction k as [| k IH]; [ reflexivity | ].
  cbn [zeros String.append NilEmpty.uint_of_string].
  rewrite <- IH.
  now destruct (NilEmpty.uint_of_string (zeros k ++ s)).
Qed.

Lemma read_fmt_08lx (v : N) :
  option_map N.of_hex_uint (NilEmpty.uint_of_string (fmt_08lx v)) = Some v.
Proof.
  unfold fmt_08lx. cbv zeta.
  rewrite read_zeros, digits_string, NilEmpty.usu. cbn.
  now rewrite HexadecimalN.Unsigned.of_to.
Qed.

Lemma all_chars_append (p : ascii -> bool) (s t : string) :
  all_chars p (s ++ t) = all_chars p s && all_chars p t.
Proof.
  induction s as [| c s IH]; cbn; [ reflexivity | ].
  now rewrite IH, andb_assoc.
Qed.

Lemma append_cancel_r (s t u : string) :
  (s ++ u)%string = (t ++ u)%string -> s = t.
Proof.
  revert t; induction s as [| c s IH]; intros [| c' t] Heq; cbn in Heq.
  - reflexivity.
  - apply (f_equal String.length) in Heq. cbn in Heq.
    rewrite length_append in Heq. lia.
  - apply (f_equal String.length) in Heq. cbn in Heq.
    rewrite length_append in Heq. lia.
  - injection Heq as -> Heq. f_equal. now apply IH.
Qed.

(** What [halt] prints for a return value has at least eight digits,
    all of them among [0-9a-f], and exactly eight when the value is
    below [2^32]. *)
Theorem fmt_08lx_shape (v : N) :
  (8 <= String.length (fmt_08lx v))%nat /\
  all_chars lower_hex (fmt_08lx v) = true /\
  (v < 2 ^ 32 -> String.length (fmt_08lx v) = 8%nat).
Proof.
  unfold fmt_08lx. cbv zeta.
  rewrite length_append, length_zeros, all_chars_append, digits_string,
    length_digits.
  split; [ lia | split ].
  - apply andb_true_intro. split.
    + induction (8 - Hexadecimal.nb_digits (N.to_hex_uint v))%nat;
        [ reflexivity | assumption ].
    + induction (N.to_hex_uint v); cbn; auto.
  - intros Hv. apply digits_bound in Hv. lia.
Qed.

Lemma fmt_08lx_shape_witness :
  0xA0 < 2 ^ 32 /\ String.length (fmt_08lx 0xA0) = 8%nat.
Proof.
  split; [ reflexivity | ].
  apply (fmt_08lx_shape 0xA0). reflexivity.
Defined.

(** The message tells the return value: if two calls of [halt] print
    the same text, they were given the same value. *)
Theorem halt_message_is_injective (env env' : Env) (rv rv' : CK_RV) :
  stdout (run env (halt rv)) = stdout (run env' (halt rv')) -> rv = rv'.
Proof.
  intros Heq.
  change (("Error " ++ fmt_08lx rv ++ newline)%string =
          ("Error " ++ fmt_08lx rv' ++ newline)%string) in Heq.
  injection Heq as Heq.
  apply append_cancel_r in Heq.
  apply (f_equal (fun s => option_map N.of_hex_uint
                             (NilEmpty.uint_of_string s))) in Heq.
  rewrite !read_fmt_08lx in Heq. now injection Heq.
Qed.

Lemma halt_message_is_injective_witness :
  stdout (run login_fails (halt 0xA0)) =
  stdout (run close_fails (halt (0x50 + 0x50))) /\
  0xA0 = 0x50 + 0x50.
Proof.
  split; [ reflexivity | ].
  apply (halt_message_is_injective login_fails close_fails). reflexivity.
Defined.
